(** * Event dispatch of go-whatsapp ([handler.go])

    A shallow embedding of [AddHandler], [handleMessage], [handle] and
    [dispatch], and the properties of the dispatch engine proved on it.

    Effects.  The Go code returns nothing: everything it does is an effect
    (a goroutine started with [go], a call of [updateContacts], a write to
    [os.Stderr]).  Every function is therefore embedded as a function into
    a trace, the list of the effects it performs in program order.  A
    goroutine is recorded where the [go] statement starts it; what the
    handler's method does afterwards, and how goroutines interleave, is
    outside [handler.go] and outside this development. *)

From stdpp Require Import base gmap strings list.

#[local] Set Warnings "-register-all".

(** ** Types declared outside [handler.go]

    [error] is Go's predeclared interface; the seven message structs live in
    the package's message file and [WebMessageInfo] in [binary/proto].  None
    of their fields is read by [handler.go], so they stay abstract. *)
Class ExternalTypes := {
  error : Type;
  TextMessage : Type;
  ImageMessage : Type;
  VideoMessage : Type;
  AudioMessage : Type;
  DocumentMessage : Type;
  LocationMessage : Type;
  LiveLocationMessage : Type;
  WebMessageInfo : Type
}.

(** ** Handlers and the optional interfaces *)

(** The nine interfaces that embed [Handler] and add one method. *)
Inductive iface :=
| JsonMessageHandler
| TextMessageHandler
| ImageMessageHandler
| VideoMessageHandler
| AudioMessageHandler
| DocumentMessageHandler
| LocationMessageHandler
| LiveLocationMessageHandler
| RawMessageHandler.

Global Instance iface_eq_dec : EqDecision iface.
Proof. solve_decision. Defined.

(** A (non-nil) value of interface type [Handler]: the identity of the
    object, and the optional interfaces in the method set of its dynamic
    type.  [HandleError] is in every method set: the parameter type of
    [AddHandler] requires it. *)
Record Handler := mkHandler {
  handler_id : nat;
  method_set : list iface
}.

Global Instance Handler_eq_dec : EqDecision Handler.
Proof. solve_decision. Defined.

(** The type assertion [_, ok := h.(I)]. *)
Definition implements (h : Handler) (i : iface) : bool :=
  bool_decide (i ∈ method_set h).

Section Dispatch.
Context {ET : ExternalTypes}.

(** ** Values of type [interface{}] *)

(** The dynamic values that reach [handleMessage] and [dispatch].  [VNil]
    is the nil interface; [VNode] and [VWebMessageInfo] are the pointers
    [*binary.Node] and [*proto.WebMessageInfo] (taken non-nil: [dispatch]
    reads [message.Description] through the first); [VSlice] is
    [[]interface{}]; [VOther] is a value of any other dynamic type, given
    by the type's name. *)
Inductive value :=
| VNil
| VError (e : error)
| VString (s : string)
| VTextMessage (m : TextMessage)
| VImageMessage (m : ImageMessage)
| VVideoMessage (m : VideoMessage)
| VAudioMessage (m : AudioMessage)
| VDocumentMessage (m : DocumentMessage)
| VLocationMessage (m : LocationMessage)
| VLiveLocationMessage (m : LiveLocationMessage)
| VWebMessageInfo (p : WebMessageInfo)
| VNode (n : Node)
| VSlice (con : list value)
| VOther (dynamic_type : string)
with Node :=
| mkNode (description : string) (attributes : gmap string string)
         (content : value).

(** The fields of [binary.Node] that [dispatch] reads. *)
Definition Description (n : Node) : string :=
  match n with mkNode d _ _ => d end.

Definition Attributes (n : Node) : gmap string string :=
  match n with mkNode _ a _ => a end.

Definition Content (n : Node) : value :=
  match n with mkNode _ _ c => c end.

(** Indexing a Go map: a missing key reads as the zero value. *)
Definition map_index (m : gmap string string) (k : string) : string :=
  default "" (m !! k).

(** ** Effects *)

(** A method call on a handler, as the [go] statements make them. *)
Inductive call :=
| HandleError (err : error)
| HandleJsonMessage (message : string)
| HandleTextMessage (message : TextMessage)
| HandleImageMessage (message : ImageMessage)
| HandleVideoMessage (message : VideoMessage)
| HandleAudioMessage (message : AudioMessage)
| HandleDocumentMessage (message : DocumentMessage)
| HandleLocationMessage (message : LocationMessage)
| HandleLiveLocationMessage (message : LiveLocationMessage)
| HandleRawMessage (message : WebMessageInfo).

Inductive effect :=
| Go (h : Handler) (c : call)
    (* [go h.M(m)]: a goroutine running method call [c] on [h] is started *)
| EnterHandle (message : value)
    (* [wac.handle(message)] is entered *)
| UpdateContacts (content : value)
    (* [wac.updateContacts(content)] is called *)
| FprintfStderr (format : string) (arg : value).
    (* [fmt.Fprintf(os.Stderr, format, arg)] *)

(** [for _, x := range l { body x }] *)
Fixpoint for_range {A} (l : list A) (body : A → list effect) : list effect :=
  match l with
  | [] => []
  | x :: l' => body x ++ for_range l' body
  end.

(** ** The connection *)

(** Of the fields of [Conn], [handler.go] uses [handler] only. *)
Record Conn := mkConn {
  handler : list Handler
}.

Definition AddHandler (h : Handler) (wac : Conn) : Conn :=
  {| handler := handler wac ++ [h] |}.

(** ** [handleMessage] *)

Definition handleMessage (message : value) (handlers : list Handler) : list effect :=
  match message with
  | VError m =>
      for_range handlers (λ h, [Go h (HandleError m)])
  | VString m =>
      for_range handlers (λ h,
        if implements h JsonMessageHandler
        then [Go h (HandleJsonMessage m)] else [])
  | VTextMessage m =>
      for_range handlers (λ h,
        if implements h TextMessageHandler
        then [Go h (HandleTextMessage m)] else [])
  | VImageMessage m =>
      for_range handlers (λ h,
        if implements h ImageMessageHandler
        then [Go h (HandleImageMessage m)] else [])
  | VVideoMessage m =>
      for_range handlers (λ h,
        if implements h VideoMessageHandler
        then [Go h (HandleVideoMessage m)] else [])
  | VAudioMessage m =>
      for_range handlers (λ h,
        if implements h AudioMessageHandler
        then [Go h (HandleAudioMessage m)] else [])
  | VDocumentMessage m =>
      for_range handlers (λ h,
        if implements h DocumentMessageHandler
        then [Go h (HandleDocumentMessage m)] else [])
  | VLocationMessage m =>
      for_range handlers (λ h,
        if implements h LocationMessageHandler
        then [Go h (HandleLocationMessage m)] else [])
  | VLiveLocationMessage m =>
      for_range handlers (λ h,
        if implements h LiveLocationMessageHandler
        then [Go h (HandleLiveLocationMessage m)] else [])
  | VWebMessageInfo m =>
      for_range handlers (λ h,
        if implements h RawMessageHandler
        then [Go h (HandleRawMessage m)] else [])
  | _ => []
  end.

Definition handle (wac : Conn) (message : value) : list effect :=
  EnterHandle message :: handleMessage message (handler wac).

(** ** [dispatch] *)

(** [parseProtoMessage] is defined in the package's message file.  All
    that [dispatch] does with its result is to pass it to [handle]. *)
Variable parseProtoMessage : WebMessageInfo → value.

(** [updateContacts] is a method of [Conn] defined with the contact store;
    [dispatch] calls it and uses no result. *)
Definition updateContacts (wac : Conn) (content : value) : list effect :=
  [UpdateContacts content].

Definition dispatch (wac : Conn) (msg : value) : list effect :=
  match msg with
  | VNil => []
  | VNode message =>
      if decide (Description message = "action") then
        match Content message with
        | VSlice con =>
            for_range con (λ x,
              match x with
              | VWebMessageInfo v =>
                  handle wac (VWebMessageInfo v)
                  ++ handle wac (parseProtoMessage v)
              | _ => []
              end)
        | _ => []
        end
      else if decide (Description message = "response"
                      ∧ map_index (Attributes message) "type" = "contacts")
      then updateContacts wac (Content message)
      else []
  | VError _ => handle wac msg
  | VString _ => handle wac msg
  | _ => [FprintfStderr "unknown type in dipatcher chan: %T" msg]
  end.

(** ** Vocabulary of the properties *)

(** The method that takes a value of the given dynamic type, as the
    interface declarations pair them: [HandleError(err error)],
    [HandleJsonMessage(message string)], [HandleTextMessage(message
    TextMessage)], ..., [HandleRawMessage(message *proto.WebMessageInfo)].
    [None] for a value no interface has a method for. *)
Definition event_call (E : value) : option call :=
  match E with
  | VError e => Some (HandleError e)
  | VString s => Some (HandleJsonMessage s)
  | VTextMessage m => Some (HandleTextMessage m)
  | VImageMessage m => Some (HandleImageMessage m)
  | VVideoMessage m => Some (HandleVideoMessage m)
  | VAudioMessage m => Some (HandleAudioMessage m)
  | VDocumentMessage m => Some (HandleDocumentMessage m)
  | VLocationMessage m => Some (HandleLocationMessage m)
  | VLiveLocationMessage m => Some (HandleLiveLocationMessage m)
  | VWebMessageInfo p => Some (HandleRawMessage p)
  | _ => None
  end.

(** The optional interface that declares a method; [None] for
    [HandleError], which the base interface [Handler] declares. *)
Definition call_iface (c : call) : option iface :=
  match c with
  | HandleError _ => None
  | HandleJsonMessage _ => Some JsonMessageHandler
  | HandleTextMessage _ => Some TextMessageHandler
  | HandleImageMessage _ => Some ImageMessageHandler
  | HandleVideoMessage _ => Some VideoMessageHandler
  | HandleAudioMessage _ => Some AudioMessageHandler
  | HandleDocumentMessage _ => Some DocumentMessageHandler
  | HandleLocationMessage _ => Some LocationMessageHandler
  | HandleLiveLocationMessage _ => Some LiveLocationMessageHandler
  | HandleRawMessage _ => Some RawMessageHandler
  end.

(** [h] has the method of call [c]. *)
Definition satisfies (h : Handler) (c : call) : bool :=
  match call_iface c with
  | None => true
  | Some i => implements h i
  end.

(** One goroutine running [c] per handler of [hs] that has the method, in
    the order of [hs]. *)
Definition fan_out (c : call) (hs : list Handler) : list effect :=
  (λ h, Go h c) <$> filter (λ h, satisfies h c) hs.

Definition is_go (e : effect) : bool :=
  match e with Go _ _ => true | _ => false end.

Definition is_delivery_to (H : Handler) (e : effect) : bool :=
  match e with Go h _ => bool_decide (h = H) | _ => false end.

(** The goroutines that a trace starts on handler [H]. *)
Definition deliveries_to (H : Handler) (t : list effect) : list effect :=
  filter (λ e, is_delivery_to H e) t.

(** How often [H] occurs in a handler list. *)
Definition occurrences (H : Handler) (hs : list Handler) : nat :=
  length (filter (λ h, h = H) hs).

(** The values that a trace passes to [handle], in order. *)
Definition submissions (t : list effect) : list value :=
  omap (λ e, match e with EnterHandle m => Some m | _ => None end) t.

Definition is_raw (v : value) : bool :=
  match v with VWebMessageInfo _ => true | _ => false end.

(** One of the seven chat-message structs. *)
Definition is_chat (v : value) : bool :=
  match v with
  | VTextMessage _ | VImageMessage _ | VVideoMessage _ | VAudioMessage _
  | VDocumentMessage _ | VLocationMessage _ | VLiveLocationMessage _ => true
  | _ => false
  end.

(** An element of an action node's content that is a raw envelope and
    that [parseProtoMessage] turns into a chat message. *)
Definition decodes (x : value) : bool :=
  match x with
  | VWebMessageInfo p => is_chat (parseProtoMessage p)
  | _ => false
  end.

(** Modelled from the spec: [parseProtoMessage] is not in [handler.go];
    the message decoder "converts a raw protocol envelope into one of the
    typed chat-message variants, or indicates not representable (no typed
    variant produced)".  So its result is a chat message, or a value that
    [handleMessage] has no case for. *)
Definition decoder_range : Prop :=
  ∀ p, is_chat (parseProtoMessage p) ∨ event_call (parseProtoMessage p) = None.

(** The effects of [handleMessage] on a value, by the value's method. *)
Definition fan_out_of (E : value) (hs : list Handler) : list effect :=
  match event_call E with
  | Some c => fan_out c hs
  | None => []
  end.

(** The body of the loop of [dispatch] over the content of an action
    node, at element [x]. *)
Definition action_element (wac : Conn) (x : value) : list effect :=
  match x with
  | VWebMessageInfo v =>
      handle wac (VWebMessageInfo v) ++ handle wac (parseProtoMessage v)
  | _ => []
  end.

(** Node [n] with the sequence [con] for content. *)
Definition with_content (n : Node) (con : list value) : Node :=
  mkNode (Description n) (Attributes n) (VSlice con).

Definition is_stderr (e : effect) : bool :=
  match e with FprintfStderr _ _ => true | _ => false end.

Definition is_update_contacts (e : effect) : bool :=
  match e with UpdateContacts _ => true | _ => false end.

(** The handlers on which a trace starts a goroutine, in order. *)
Definition targets (t : list effect) : list Handler :=
  omap (λ e, match e with Go h _ => Some h | _ => None end) t.

(** A goroutine running [HandleRawMessage] on [H]. *)
Definition is_raw_delivery_to (H : Handler) (e : effect) : bool :=
  match e with
  | Go h (HandleRawMessage _) => bool_decide (h = H)
  | _ => false
  end.

End Dispatch.

(** ** Concrete data for the examples *)

(** Every external type read as a string (a name for the value). *)
Definition example_types : ExternalTypes := {|
  error := string;
  TextMessage := string;
  ImageMessage := string;
  VideoMessage := string;
  AudioMessage := string;
  DocumentMessage := string;
  LocationMessage := string;
  LiveLocationMessage := string;
  WebMessageInfo := string
|}.

(** Handler [obsA] has [HandleTextMessage] only, [obsB] has
    [HandleImageMessage] only, [obsR] has [HandleRawMessage] and
    [HandleJsonMessage]; all three have [HandleError]. *)
Definition obsA : Handler := mkHandler 1 [TextMessageHandler].
Definition obsB : Handler := mkHandler 2 [ImageMessageHandler].
Definition obsR : Handler := mkHandler 3 [RawMessageHandler; JsonMessageHandler].

(** A decoder for the examples: envelope ["text"] is a text message,
    envelope ["image"] an image message, any other has no typed form. *)
Definition example_parse (p : @WebMessageInfo example_types)
    : @value example_types :=
  if decide (p = "text") then VTextMessage (ET := example_types) "hello"
  else if decide (p = "image") then VImageMessage (ET := example_types) "photo"
  else VNil.

(** A connection with [obsA] and [obsB] registered. *)
Definition example_conn : Conn := mkConn [obsA; obsB].

(** An action node with three raw envelopes, of which two decode, and one
    element that is no raw envelope. *)
Definition example_content : list (@value example_types) :=
  [VWebMessageInfo (ET := example_types) "text";
   VWebMessageInfo (ET := example_types) "image";
   VString "noise";
   VWebMessageInfo (ET := example_types) "sticker"].

Definition example_action : @Node example_types :=
  mkNode "action" ∅ (VSlice example_content).

Definition example_contacts : @Node example_types :=
  mkNode "response" {[ "type" := "contacts" ]} (VOther "[]uint8").

Definition example_chat_response : @Node example_types :=
  mkNode "response" {[ "type" := "chat" ]} (VOther "[]uint8").

(** A response node with no attribute at all. *)
Definition example_bare_response : @Node example_types :=
  mkNode "response" ∅ (VOther "[]uint8").

(** A decoded text message, as a top-level value. *)
Definition example_text : @value example_types :=
  VTextMessage (ET := example_types) "hello".

(** A connection with [obsA], [obsB] and [obsR] registered. *)
Definition example_conn3 : Conn := mkConn [obsA; obsB; obsR].

(** * Properties *)

Section Properties.
Context {ET : ExternalTypes}.
Variable parseProtoMessage : WebMessageInfo → value.

(** ** Loops *)

Lemma for_range_app {A} (l1 l2 : list A) (body : A → list effect) :
  for_range (l1 ++ l2) body = for_range l1 body ++ for_range l2 body.
Proof.
  induction l1 as [|x l1 IH]; simpl; [done|].
  by rewrite IH, (assoc_L (++)).
Qed.

Lemma for_range_always (hs : list Handler) (f : Handler → effect) :
  for_range hs (λ h, [f h]) = f <$> hs.
Proof. induction hs as [|h hs IH]; simpl; [done|]. by rewrite IH. Qed.

Lemma for_range_guarded (hs : list Handler) (g : Handler → bool)
    (f : Handler → effect) :
  for_range hs (λ h, if g h then [f h] else []) = f <$> filter (λ h, g h) hs.
Proof.
  induction hs as [|h hs IH]; simpl; [done|].
  rewrite IH, filter_cons. destruct (g h) eqn:Hg.
  - by rewrite decide_True by done.
  - by rewrite decide_False by (by intros []).
Qed.

Lemma filter_all_true (hs : list Handler) :
  filter (λ _ : Handler, Is_true true) hs = hs.
Proof.
  induction hs as [|h hs IH]; [done|].
  rewrite filter_cons, decide_True by done. by rewrite IH.
Qed.

(** ** [handleMessage] is the fan-out of the value's method *)

Lemma handleMessage_recognized E c hs :
  event_call E = Some c → handleMessage E hs = fan_out c hs.
Proof.
  intros HE. unfold fan_out, satisfies.
  destruct E; simplify_eq/=;
    first [ by rewrite for_range_always, filter_all_true
          | by rewrite for_range_guarded ].
Qed.

Lemma handleMessage_unrecognized E hs :
  event_call E = None → handleMessage E hs = [].
Proof. by destruct E. Qed.

Lemma fan_out_app c hs1 hs2 :
  fan_out c (hs1 ++ hs2) = fan_out c hs1 ++ fan_out c hs2.
Proof. unfold fan_out. by rewrite filter_app, fmap_app. Qed.

Lemma fan_out_cons c h hs :
  fan_out c (h :: hs) =
  (if satisfies h c then [Go h c] else []) ++ fan_out c hs.
Proof.
  unfold fan_out. rewrite filter_cons.
  destruct (satisfies h c) eqn:Hs.
  - by rewrite decide_True by done.
  - by rewrite decide_False by (by intros []).
Qed.

Lemma deliveries_to_app H t1 t2 :
  deliveries_to H (t1 ++ t2) = deliveries_to H t1 ++ deliveries_to H t2.
Proof. apply filter_app. Qed.

Lemma deliveries_to_fan_out H c hs :
  deliveries_to H (fan_out c hs) =
  if satisfies H c then replicate (occurrences H hs) (Go H c) else [].
Proof.
  induction hs as [|h hs IH].
  - by destruct (satisfies H c).
  - rewrite fan_out_cons, deliveries_to_app, IH.
    unfold occurrences. rewrite filter_cons.
    destruct (decide (h = H)) as [->|Hne].
    + destruct (satisfies H c); [|done].
      unfold deliveries_to. rewrite filter_cons.
      rewrite decide_True by (simpl; by rewrite bool_decide_true). done.
    + destruct (satisfies h c); simpl.
      * unfold deliveries_to at 1. rewrite filter_cons.
        rewrite decide_False by (simpl; by rewrite bool_decide_spec). done.
      * done.
Qed.

Lemma occurrences_pos H hs : H ∈ hs → 0 < occurrences H hs.
Proof.
  intros Hin. unfold occurrences.
  destruct (filter (λ h, h = H) hs) as [|h l] eqn:Hf; simpl; [|lia].
  assert (H ∈ filter (λ h, h = H) hs) as Hin'
    by (by apply list_elem_of_filter).
  rewrite Hf in Hin'. by apply elem_of_nil in Hin'.
Qed.

Lemma handleMessage_deliveries E c hs H :
  event_call E = Some c → satisfies H c →
  deliveries_to H (handleMessage E hs) = replicate (occurrences H hs) (Go H c).
Proof.
  intros HE Hsat.
  rewrite (handleMessage_recognized _ _ _ HE), deliveries_to_fan_out.
  by destruct (satisfies H c).
Qed.

(** ** The fan-out dispatcher *)

(** C1 (completeness and exactly-once delivery).  For every recognized
    value [E] (one that some interface has a method [c] for: an error, a
    string, one of the seven chat messages, a raw envelope) and every
    handler [H] of the list that has that method, one call of
    [handleMessage] starts on [H] exactly the goroutines [go H.c], one for
    each occurrence of [H] in the list, and [H] occurs at least once. *)
Theorem handleMessage_exactly_once (E : value) (c : call)
    (hs : list Handler) (H : Handler) :
  event_call E = Some c → H ∈ hs → satisfies H c →
  0 < occurrences H hs ∧
  deliveries_to H (handleMessage E hs) = replicate (occurrences H hs) (Go H c).
Proof.
  intros HE Hin Hsat. split.
  - by apply occurrences_pos.
  - by apply handleMessage_deliveries.
Qed.

(** C2 (universality of error delivery).  For an error value the trace of
    [handleMessage] is one [go h.HandleError(e)] per handler of the list,
    in list order: the method set of a handler plays no part.  Hence every
    handler [H] of the list gets the call, once per occurrence. *)
Theorem handleMessage_error_universal (e : error) (hs : list Handler) :
  handleMessage (VError e) hs = (λ h, Go h (HandleError e)) <$> hs ∧
  ∀ H, H ∈ hs →
    Go H (HandleError e) ∈ handleMessage (VError e) hs ∧
    deliveries_to H (handleMessage (VError e) hs) =
      replicate (occurrences H hs) (Go H (HandleError e)).
Proof.
  split; [apply for_range_always|].
  intros H Hin. split.
  - simpl. rewrite for_range_always.
    by apply (list_elem_of_fmap_2 (λ h, Go h (HandleError e))).
  - by apply handleMessage_deliveries.
Qed.

(** C4 (non-leakage).  For a value [E] whose method [c] is declared by the
    optional interface [i] (so [E] is no error) and a handler [H] that does
    not implement [i]: whatever the handler list, [handleMessage] starts
    no goroutine on [H], and the trace is the one of the list without
    [H]: skipping [H] has no effect of its own. *)
Theorem handleMessage_non_leakage (E : value) (c : call) (i : iface)
    (H : Handler) :
  event_call E = Some c → call_iface c = Some i → implements H i = false →
  (∀ hs, deliveries_to H (handleMessage E hs) = []) ∧
  (∀ hs c', Go H c' ∉ handleMessage E hs) ∧
  (∀ hs1 hs2, handleMessage E (hs1 ++ H :: hs2) = handleMessage E (hs1 ++ hs2)).
Proof.
  intros HE Hi Himp.
  assert (satisfies H c = false) as Hsat by (unfold satisfies; by rewrite Hi).
  assert (∀ hs, deliveries_to H (handleMessage E hs) = []) as Hnone.
  { intros hs. rewrite (handleMessage_recognized _ _ _ HE).
    by rewrite deliveries_to_fan_out, Hsat. }
  split; [done|]. split.
  - intros hs c' Hin.
    assert (Go H c' ∈ deliveries_to H (handleMessage E hs)) as Hin'.
    { apply list_elem_of_filter. split; [|done]. simpl.
      by rewrite bool_decide_true. }
    rewrite Hnone in Hin'. by apply elem_of_nil in Hin'.
  - intros hs1 hs2. rewrite !(handleMessage_recognized _ _ _ HE).
    rewrite !fan_out_app, fan_out_cons. by rewrite Hsat.
Qed.

(** C6, as amended (silent drop without a diagnostic).  For a value that
    no interface has a method for, [handleMessage] has no effect at all:
    no goroutine is started and nothing is written to [os.Stderr] (the
    type switch of [handleMessage] has no [default] branch). *)
Theorem handleMessage_unrecognized_silent (E : value) (hs : list Handler) :
  event_call E = None →
  handleMessage E hs = [] ∧
  (∀ H c, Go H c ∉ handleMessage E hs) ∧
  (∀ format arg, FprintfStderr format arg ∉ handleMessage E hs).
Proof.
  intros HE. rewrite (handleMessage_unrecognized _ _ HE).
  repeat split; intros; apply not_elem_of_nil.
Qed.

(** ** The node router *)

Lemma handleMessage_fan_out_of E hs : handleMessage E hs = fan_out_of E hs.
Proof.
  unfold fan_out_of. destruct (event_call E) as [c|] eqn:HE.
  - by apply handleMessage_recognized.
  - by apply handleMessage_unrecognized.
Qed.

Lemma submissions_app (t1 t2 : list effect) :
  submissions (t1 ++ t2) = submissions t1 ++ submissions t2.
Proof. apply omap_app. Qed.

Lemma submissions_fan_out c hs : submissions (fan_out c hs) = [].
Proof.
  unfold fan_out. induction (filter (λ h, satisfies h c) hs) as [|h l IH];
    [done|]. by rewrite fmap_cons.
Qed.

Lemma submissions_handle wac m : submissions (handle wac m) = [m].
Proof.
  unfold handle. rewrite handleMessage_fan_out_of. unfold fan_out_of.
  change (submissions (EnterHandle m :: ?t)) with (m :: submissions t).
  destruct (event_call m); [by rewrite submissions_fan_out | done].
Qed.

Lemma dispatch_action wac n con :
  Description n = "action" → Content n = VSlice con →
  dispatch parseProtoMessage wac (VNode n)
  = for_range con (action_element parseProtoMessage wac).
Proof.
  intros Hd Hc. unfold dispatch. rewrite decide_True by done. by rewrite Hc.
Qed.

Lemma submissions_action wac con :
  submissions (for_range con (action_element parseProtoMessage wac))
  = con ≫= (λ x, match x with
                 | VWebMessageInfo p => [x; parseProtoMessage p]
                 | _ => []
                 end).
Proof.
  induction con as [|x con IH]; [done|].
  simpl. rewrite submissions_app, IH. f_equal.
  destruct x; try done.
  unfold action_element. by rewrite submissions_app, !submissions_handle.
Qed.

Lemma decoder_not_raw p :
  decoder_range parseProtoMessage → is_raw (parseProtoMessage p) = false.
Proof. intros Hdec. by destruct (Hdec p), (parseProtoMessage p). Qed.

Lemma decoder_miss p :
  decoder_range parseProtoMessage → is_chat (parseProtoMessage p) = false →
  event_call (parseProtoMessage p) = None.
Proof. intros Hdec Hc. destruct (Hdec p) as [H|H]; [by rewrite Hc in H|done]. Qed.

Lemma action_raw_count con :
  decoder_range parseProtoMessage →
  length (filter (λ m, is_raw m)
            (con ≫= (λ x, match x with
                          | VWebMessageInfo p => [x; parseProtoMessage p]
                          | _ => []
                          end)))
  = length (filter (λ x, is_raw x) con).
Proof.
  intros Hdec. induction con as [|x con IH]; [done|].
  rewrite bind_cons, filter_app, length_app, IH, (filter_cons _ x).
  destruct x; try done.
  rewrite decide_True by done. rewrite filter_cons, decide_True by done.
  rewrite filter_cons, decide_False; [done|].
  rewrite (decoder_not_raw _ Hdec). by intros [].
Qed.

Lemma action_chat_count con :
  length (filter (λ m, is_chat m)
            (con ≫= (λ x, match x with
                          | VWebMessageInfo p => [x; parseProtoMessage p]
                          | _ => []
                          end)))
  = length (filter (λ x, decodes parseProtoMessage x) con).
Proof.
  induction con as [|x con IH]; [done|].
  rewrite bind_cons, filter_app, length_app, IH, (filter_cons _ x).
  destruct x; try done.
  rewrite filter_cons, decide_False by (by intros []).
  rewrite filter_cons. simpl. by destruct (is_chat (parseProtoMessage p)).
Qed.

Lemma action_trace wac con :
  for_range con (action_element parseProtoMessage wac)
  = (con ≫= (λ x, match x with
                  | VWebMessageInfo p => [x; parseProtoMessage p]
                  | _ => []
                  end))
    ≫= (λ m, EnterHandle m :: fan_out_of m (handler wac)).
Proof.
  induction con as [|x con IH]; [done|].
  change (for_range (x :: con) ?b) with (b x ++ for_range con b).
  rewrite bind_cons, bind_app, <- IH. f_equal.
  destruct x; try done.
  unfold action_element, handle. rewrite !handleMessage_fan_out_of.
  rewrite !bind_cons. simpl. by rewrite app_nil_r.
Qed.

(** C3 (action-node routing counts).  Let [n] be a node with description
    ["action"] whose content is the sequence [con], and let the decoder
    return chat messages or values [handleMessage] has no case for.  Of
    the values one [dispatch] passes to [handle], as many are raw envelopes
    as [con] has raw envelopes (k), and as many are chat messages as [con]
    has raw envelopes that decode to one (d).  The trace is, for each
    submitted value in turn, the entry into [handle] followed by one
    goroutine on each handler that has the value's method and on no
    other.  An element of [con] that does not decode to a chat message
    contributes the fan-out of the raw envelope and a call of [handle]
    that starts nothing. *)
Theorem dispatch_action_counts (wac : Conn) (n : Node) (con : list value) :
  decoder_range parseProtoMessage →
  Description n = "action" → Content n = VSlice con →
  let t := dispatch parseProtoMessage wac (VNode n) in
  length (filter (λ m, is_raw m) (submissions t))
    = length (filter (λ x, is_raw x) con) ∧
  length (filter (λ m, is_chat m) (submissions t))
    = length (filter (λ x, decodes parseProtoMessage x) con) ∧
  t = submissions t ≫= (λ m, EnterHandle m :: fan_out_of m (handler wac)) ∧
  ∀ l1 p l2,
    con = l1 ++ VWebMessageInfo p :: l2 →
    is_chat (parseProtoMessage p) = false →
    t = dispatch parseProtoMessage wac (VNode (with_content n l1))
        ++ (EnterHandle (VWebMessageInfo p)
              :: fan_out (HandleRawMessage p) (handler wac))
        ++ [EnterHandle (parseProtoMessage p)]
        ++ dispatch parseProtoMessage wac (VNode (with_content n l2)).
Proof.
  intros Hdec Hd Hc t. subst t.
  rewrite (dispatch_action _ _ _ Hd Hc), submissions_action.
  split; [by apply action_raw_count|].
  split; [apply action_chat_count|].
  split; [apply action_trace|].
  intros l1 p l2 -> Hmiss.
  rewrite !(dispatch_action _ (with_content n _) _ Hd eq_refl).
  rewrite for_range_app. f_equal.
  change (for_range (?x :: ?l) ?b) with (b x ++ for_range l b).
  unfold action_element at 1, handle.
  rewrite (handleMessage_unrecognized (parseProtoMessage p))
    by (by apply decoder_miss).
  rewrite (handleMessage_recognized _ (HandleRawMessage p)) by done.
  by rewrite <- !app_assoc.
Qed.

(** C5 (contacts response).  For a node with description ["response"]
    whose attribute ["type"] is ["contacts"], the whole trace of
    [dispatch] is one call of [updateContacts] with the node's content:
    nothing is passed to [handle] and no goroutine is started. *)
Theorem dispatch_contacts_response (wac : Conn) (n : Node) :
  Description n = "response" →
  map_index (Attributes n) "type" = "contacts" →
  let t := dispatch parseProtoMessage wac (VNode n) in
  t = [UpdateContacts (Content n)] ∧
  filter (λ e, is_update_contacts e) t = [UpdateContacts (Content n)] ∧
  submissions t = [] ∧
  filter (λ e, is_go e) t = [].
Proof.
  intros Hd Ht t. subst t. unfold dispatch.
  rewrite decide_False by (by rewrite Hd).
  by rewrite decide_True by done.
Qed.

(** C7 (a raw envelope at top level).  Passed to [dispatch] itself, a
    raw envelope takes the [default] branch: the trace is the one write
    to [os.Stderr], no goroutine is started and [handle] is not entered.
    The same value is a case of [handleMessage], which starts
    [HandleRawMessage] on every handler of the list that implements
    [RawMessageHandler], and so does [dispatch] when the envelope is the
    content of an action node. *)
Theorem dispatch_top_level_raw (wac : Conn) (p : WebMessageInfo) :
  let t := dispatch parseProtoMessage wac (VWebMessageInfo p) in
  t = [FprintfStderr "unknown type in dipatcher chan: %T" (VWebMessageInfo p)] ∧
  (∀ H c, Go H c ∉ t) ∧
  submissions t = [] ∧
  event_call (VWebMessageInfo p) = Some (HandleRawMessage p) ∧
  (∀ H, H ∈ handler wac → implements H RawMessageHandler →
     Go H (HandleRawMessage p)
       ∈ handleMessage (VWebMessageInfo p) (handler wac)) ∧
  (∀ H attrs, H ∈ handler wac → implements H RawMessageHandler →
     Go H (HandleRawMessage p)
       ∈ dispatch parseProtoMessage wac
           (VNode (mkNode "action" attrs (VSlice [VWebMessageInfo p])))).
Proof.
  assert (∀ H, H ∈ handler wac → implements H RawMessageHandler →
     Go H (HandleRawMessage p)
       ∈ handleMessage (VWebMessageInfo p) (handler wac)) as Hraw.
  { intros H Hin Himp.
    rewrite (handleMessage_recognized _ (HandleRawMessage p)) by done.
    apply (list_elem_of_fmap_2 (λ h, Go h (HandleRawMessage p))).
    by apply list_elem_of_filter. }
  split; [done|]. split.
  { intros H c Hin. apply list_elem_of_singleton in Hin. discriminate. }
  do 3 (split; [done|]).
  intros H attrs Hin Himp.
  rewrite (dispatch_action wac _ [VWebMessageInfo p]) by done.
  change (for_range [?x] ?b) with (b x ++ []).
  unfold action_element, handle.
  rewrite app_nil_r. apply elem_of_app. left.
  apply list_elem_of_further. by apply Hraw.
Qed.

(** C8 (nil and unknown values at top level).  [dispatch] of the nil
    interface has no effect.  For a value that is not nil and is neither a
    node, nor an error, nor a string, the whole trace of [dispatch] is
    the write of the value's type to [os.Stderr]: no goroutine, no entry
    into [handle], no call of [updateContacts]. *)
Theorem dispatch_nil_and_unknown (wac : Conn) :
  dispatch parseProtoMessage wac VNil = [] ∧
  ∀ msg,
    msg ≠ VNil → (∀ n, msg ≠ VNode n) →
    (∀ e, msg ≠ VError e) → (∀ s, msg ≠ VString s) →
    let t := dispatch parseProtoMessage wac msg in
    t = [FprintfStderr "unknown type in dipatcher chan: %T" msg] ∧
    filter (λ e, is_go e) t = [] ∧
    submissions t = [] ∧
    filter (λ e, is_update_contacts e) t = [].
Proof.
  split; [done|].
  intros msg Hnil Hnode Herr Hstr.
  destruct msg; try done.
  - by destruct (Herr e).
  - by destruct (Hstr s).
  - by destruct (Hnode n).
Qed.

(** C9 (unmatched node).  For a node whose description is not ["action"]
    and that is not a ["response"] with attribute ["type"] equal to
    ["contacts"], [dispatch] has no effect: the trace is empty (no
    goroutine, no entry into [handle], no call of [updateContacts], no
    write to [os.Stderr]). *)
Theorem dispatch_unmatched_node (wac : Conn) (n : Node) :
  Description n ≠ "action" →
  ¬ (Description n = "response"
     ∧ map_index (Attributes n) "type" = "contacts") →
  dispatch parseProtoMessage wac (VNode n) = [].
Proof.
  intros Hd Hr. unfold dispatch.
  by rewrite decide_False, decide_False by done.
Qed.

Lemma dispatch_action_not_sequence wac n :
  Description n = "action" → (∀ con, Content n ≠ VSlice con) →
  dispatch parseProtoMessage wac (VNode n) = [].
Proof.
  intros Hd Hc. unfold dispatch. rewrite decide_True by done.
  destruct (Content n) eqn:Hn; try done. by destruct (Hc con).
Qed.

(** ** The registry *)

(** C10 (registration is an append).  [AddHandler] is a total function.
    The new handler list is the old one followed by [h]: [h] is its last
    element, every index of the old list holds the same handler as
    before, and the old list is a prefix of the new one.  Nothing is
    deduplicated: after registering [h] twice the list holds [h] two more
    times than before, and a value whose method [h] has starts that many
    goroutines on [h]. *)
Theorem AddHandler_append (h : Handler) (wac : Conn) :
  handler (AddHandler h wac) = handler wac ++ [h] ∧
  last (handler (AddHandler h wac)) = Some h ∧
  length (handler (AddHandler h wac)) = S (length (handler wac)) ∧
  (∀ i h', handler wac !! i = Some h' →
           handler (AddHandler h wac) !! i = Some h') ∧
  handler wac `prefix_of` handler (AddHandler h wac) ∧
  occurrences h (handler (AddHandler h (AddHandler h wac)))
    = 2 + occurrences h (handler wac) ∧
  (∀ E c, event_call E = Some c → satisfies h c →
     deliveries_to h
       (handleMessage E (handler (AddHandler h (AddHandler h wac))))
     = replicate (2 + occurrences h (handler wac)) (Go h c)).
Proof.
  assert (occurrences h (handler (AddHandler h (AddHandler h wac)))
          = 2 + occurrences h (handler wac)) as Hocc.
  { unfold occurrences. simpl. rewrite !filter_app, !length_app.
    rewrite !filter_cons, !decide_True by done. simpl. lia. }
  split; [done|]. split; [apply last_snoc|].
  split; [simpl; rewrite length_app; simpl; lia|].
  split; [intros i h' Hi; simpl; by apply lookup_app_l_Some|].
  split; [by apply prefix_app_r|].
  split; [done|].
  intros E c HE Hsat. rewrite <- Hocc.
  by apply handleMessage_deliveries.
Qed.

End Properties.

(** ** Examples *)

Lemma handleMessage_exactly_once_example :
  0 < occurrences obsA [obsA; obsB; obsA] ∧
  deliveries_to obsA
    (handleMessage (VTextMessage (ET := example_types) "hi") [obsA; obsB; obsA])
  = replicate (occurrences obsA [obsA; obsB; obsA])
      (Go obsA (HandleTextMessage (ET := example_types) "hi")).
Proof.
  apply (handleMessage_exactly_once (ET := example_types)).
  - reflexivity.
  - apply list_elem_of_here.
  - exact I.
Defined.

Lemma handleMessage_non_leakage_example :
  (∀ hs, deliveries_to obsB
      (handleMessage (VTextMessage (ET := example_types) "hi") hs) = []) ∧
  (∀ hs c',
      Go obsB c' ∉ handleMessage (VTextMessage (ET := example_types) "hi") hs) ∧
  (∀ hs1 hs2,
      handleMessage (VTextMessage (ET := example_types) "hi") (hs1 ++ obsB :: hs2)
      = handleMessage (VTextMessage (ET := example_types) "hi") (hs1 ++ hs2)).
Proof.
  apply (handleMessage_non_leakage (ET := example_types) _
           (HandleTextMessage (ET := example_types) "hi") TextMessageHandler);
    reflexivity.
Defined.

Lemma handleMessage_unrecognized_silent_example :
  handleMessage (VNil (ET := example_types)) [obsA; obsB; obsR] = [] ∧
  (∀ H c, Go H c ∉ handleMessage (VNil (ET := example_types)) [obsA; obsB; obsR]) ∧
  (∀ format arg,
      FprintfStderr format arg
      ∉ handleMessage (VNil (ET := example_types)) [obsA; obsB; obsR]).
Proof.
  apply (handleMessage_unrecognized_silent (ET := example_types)).
  reflexivity.
Defined.

(** C6, as the claim states it, fails: the claim has every unrecognized
    value logged to the diagnostic sink, and a value of dynamic type [int]
    (as the nil interface) passes through [handleMessage] with no write
    to [os.Stderr]. *)
Lemma handleMessage_unrecognized_not_logged :
  event_call (VOther (ET := example_types) "int") = None ∧
  event_call (VNil (ET := example_types)) = None ∧
  ¬ (∃ format,
       FprintfStderr format (VOther "int")
       ∈ handleMessage (VOther (ET := example_types) "int") [obsA; obsB; obsR]) ∧
  ¬ (∃ format,
       FprintfStderr format VNil
       ∈ handleMessage (VNil (ET := example_types)) [obsA; obsB; obsR]).
Proof.
  repeat split; intros [format Hin]; simpl in Hin; by apply elem_of_nil in Hin.
Qed.

Lemma example_parse_range : decoder_range example_parse.
Proof.
  intros p. unfold example_parse.
  repeat case_decide; [by left | by left | by right].
Qed.

Lemma dispatch_action_counts_example :
  length (filter (λ m, is_raw m)
            (submissions (dispatch example_parse example_conn
                            (VNode example_action)))) = 3 ∧
  length (filter (λ m, is_chat m)
            (submissions (dispatch example_parse example_conn
                            (VNode example_action)))) = 2 ∧
  dispatch example_parse example_conn (VNode example_action)
  = [EnterHandle (VWebMessageInfo (ET := example_types) "text");
     EnterHandle (VTextMessage (ET := example_types) "hello");
     Go obsA (HandleTextMessage (ET := example_types) "hello");
     EnterHandle (VWebMessageInfo (ET := example_types) "image");
     EnterHandle (VImageMessage (ET := example_types) "photo");
     Go obsB (HandleImageMessage (ET := example_types) "photo");
     EnterHandle (VWebMessageInfo (ET := example_types) "sticker");
     EnterHandle VNil].
Proof.
  destruct (dispatch_action_counts example_parse example_conn example_action
              example_content example_parse_range eq_refl eq_refl)
    as (Hraw & Hchat & Htrace & _).
  split; [exact Hraw|]. split; [exact Hchat|]. reflexivity.
Defined.

Lemma dispatch_contacts_response_example :
  dispatch example_parse example_conn (VNode example_contacts)
    = [UpdateContacts (VOther "[]uint8")] ∧
  filter (λ e, is_update_contacts e)
    (dispatch example_parse example_conn (VNode example_contacts))
    = [UpdateContacts (VOther "[]uint8")] ∧
  submissions (dispatch example_parse example_conn (VNode example_contacts))
    = [] ∧
  filter (λ e, is_go e)
    (dispatch example_parse example_conn (VNode example_contacts)) = [].
Proof.
  apply (dispatch_contacts_response example_parse example_conn
           example_contacts); reflexivity.
Defined.

Lemma dispatch_unmatched_node_example :
  dispatch example_parse example_conn (VNode example_chat_response) = [].
Proof.
  apply (dispatch_unmatched_node example_parse example_conn
           example_chat_response).
  - discriminate.
  - intros [_ Htype]. vm_compute in Htype. discriminate.
Defined.

(** * Further properties of [handler.go] *)

Section Further.
Context {ET : ExternalTypes}.
Variable parseProtoMessage : WebMessageInfo → value.

(** ** Which goroutines a trace holds *)

Lemma go_in_fan_out H c c' hs :
  Go H c' ∈ fan_out c hs ↔ c' = c ∧ H ∈ hs ∧ satisfies H c.
Proof.
  unfold fan_out. rewrite list_elem_of_fmap. split.
  - intros (h & Heq & Hin). inversion Heq; subst.
    apply list_elem_of_filter in Hin. by destruct Hin.
  - intros (-> & Hin & Hsat). exists H. split; [done|].
    by apply list_elem_of_filter.
Qed.

Lemma go_in_handleMessage H c E hs :
  Go H c ∈ handleMessage E hs ↔ event_call E = Some c ∧ H ∈ hs ∧ satisfies H c.
Proof.
  destruct (event_call E) as [c0|] eqn:HE.
  - rewrite (handleMessage_recognized _ _ _ HE), go_in_fan_out.
    split; [by intros (-> & ? & ?) | by intros ([= ->] & ? & ?)].
  - rewrite (handleMessage_unrecognized _ _ HE).
    split; [by intros ?%elem_of_nil | by intros ([=] & _)].
Qed.

Lemma go_in_handle H c wac m :
  Go H c ∈ handle wac m ↔
  event_call m = Some c ∧ H ∈ handler wac ∧ satisfies H c.
Proof.
  unfold handle. rewrite elem_of_cons, go_in_handleMessage.
  split; [by intros [[=]|?] | by right].
Qed.

Lemma go_in_action_loop H c wac con :
  Go H c ∈ for_range con (action_element parseProtoMessage wac) →
  H ∈ handler wac ∧ satisfies H c.
Proof.
  induction con as [|x con IH]; [by intros ?%elem_of_nil|].
  change (for_range (x :: con) ?b) with (b x ++ for_range con b).
  rewrite elem_of_app. intros [Hx|Hin]; [|by apply IH].
  destruct x; try (by apply elem_of_nil in Hx).
  unfold action_element in Hx. rewrite elem_of_app, !go_in_handle in Hx.
  by destruct Hx as [(_ & ? & ?)|(_ & ? & ?)].
Qed.

Lemma targets_fan_out c hs :
  targets (fan_out c hs) = filter (λ h, satisfies h c) hs.
Proof.
  unfold fan_out.
  induction (filter (λ h, satisfies h c) hs) as [|h l IH]; [done|].
  rewrite fmap_cons.
  change (targets (Go h c :: ?t)) with (h :: targets t). by rewrite IH.
Qed.

(** X1 (who is called, and with what).  [handleMessage] starts the
    method call [c] on [H] exactly when [c] is the method of the value,
    [H] is in the handler list and [H] has that method.  So a handler that
    implements several interfaces is called through the one that matches
    the value, and a handler outside the list is never called. *)
Theorem handleMessage_go_iff (E : value) (hs : list Handler) (H : Handler)
    (c : call) :
  Go H c ∈ handleMessage E hs ↔
  event_call E = Some c ∧ H ∈ hs ∧ satisfies H c.
Proof.
  destruct (event_call E) as [c0|] eqn:HE.
  - rewrite (handleMessage_recognized _ _ _ HE), go_in_fan_out.
    split.
    + by intros (-> & Hin & Hsat).
    + by intros ([= ->] & Hin & Hsat).
  - rewrite (handleMessage_unrecognized _ _ HE).
    split.
    + by intros Hin%elem_of_nil.
    + by intros ([=] & _).
Qed.

(** X2 (registration and delivery compose).  After [AddHandler h], the
    trace of [handleMessage] on the new handler list is the trace on the
    old list, unchanged, followed by the goroutine for [h] if [h] has the
    value's method.  So registering a handler takes no delivery from a
    handler registered earlier. *)
Theorem handleMessage_after_AddHandler (E : value) (h : Handler) (wac : Conn) :
  handleMessage E (handler (AddHandler h wac))
  = handleMessage E (handler wac)
    ++ match event_call E with
       | Some c => if satisfies h c then [Go h c] else []
       | None => []
       end ∧
  ∀ H c, Go H c ∈ handleMessage E (handler wac) →
         Go H c ∈ handleMessage E (handler (AddHandler h wac)).
Proof.
  assert (handleMessage E (handler (AddHandler h wac))
          = handleMessage E (handler wac)
            ++ match event_call E with
               | Some c => if satisfies h c then [Go h c] else []
               | None => []
               end) as Heq.
  { rewrite !handleMessage_fan_out_of. unfold fan_out_of. simpl.
    destruct (event_call E) as [c|]; [|done].
    by rewrite fan_out_app, fan_out_cons, app_nil_r. }
  split; [done|].
  intros H c Hin. rewrite Heq. apply elem_of_app. by left.
Qed.

(** X3 (registration order).  The handlers on which [handleMessage] starts
    goroutines are, in the order of the [go] statements, the handlers of
    the list that have the value's method, in list order: a sublist of the
    handler list, so at most one goroutine per entry of the list. *)
Theorem handleMessage_registry_order (E : value) (hs : list Handler) :
  targets (handleMessage E hs)
  = match event_call E with
    | Some c => filter (λ h, satisfies h c) hs
    | None => []
    end ∧
  targets (handleMessage E hs) `sublist_of` hs ∧
  length (handleMessage E hs) ≤ length hs.
Proof.
  rewrite handleMessage_fan_out_of. unfold fan_out_of.
  destruct (event_call E) as [c|].
  - rewrite targets_fan_out. split; [done|]. split.
    + apply sublist_filter.
    + unfold fan_out. rewrite length_fmap. apply length_filter.
  - split; [done|]. split; [apply sublist_nil_l | simpl; lia].
Qed.

(** ** The shapes of a [dispatch] trace *)

Lemma dispatch_cases wac msg :
  dispatch parseProtoMessage wac msg = []
  ∨ (∃ n con, msg = VNode n ∧ Description n = "action"
       ∧ Content n = VSlice con
       ∧ dispatch parseProtoMessage wac msg
         = for_range con (action_element parseProtoMessage wac))
  ∨ (∃ n, msg = VNode n ∧ Description n ≠ "action"
       ∧ Description n = "response"
       ∧ map_index (Attributes n) "type" = "contacts"
       ∧ dispatch parseProtoMessage wac msg = [UpdateContacts (Content n)])
  ∨ (((∃ e, msg = VError e) ∨ (∃ s, msg = VString s))
       ∧ dispatch parseProtoMessage wac msg = handle wac msg)
  ∨ (msg ≠ VNil ∧ (∀ n, msg ≠ VNode n) ∧ (∀ e, msg ≠ VError e)
       ∧ (∀ s, msg ≠ VString s)
       ∧ dispatch parseProtoMessage wac msg
         = [FprintfStderr "unknown type in dipatcher chan: %T" msg]).
Proof.
  destruct msg;
    try (do 4 right; repeat split; done);
    try (do 3 right; left; split; [eauto | done]).
  - by left.
  - unfold dispatch. destruct (decide (Description n = "action")) as [Hd|Hd].
    + destruct (Content n) eqn:Hc; try (by left).
      right; left. by exists n, con.
    + destruct (decide (Description n = "response"
                        ∧ map_index (Attributes n) "type" = "contacts"))
        as [[Hr Ht]|Hr]; [|by left].
      do 2 right; left. by exists n.
Qed.

Lemma handle_effects wac m e :
  e ∈ handle wac m → e = EnterHandle m ∨ ∃ H c, e = Go H c.
Proof.
  unfold handle. rewrite elem_of_cons, handleMessage_fan_out_of.
  intros [->|Hin]; [by left|]. right.
  unfold fan_out_of in Hin. destruct (event_call m) as [c|];
    [|by apply elem_of_nil in Hin].
  unfold fan_out in Hin. apply list_elem_of_fmap in Hin as (h & -> & _).
  by exists h, c.
Qed.

Lemma action_loop_effects wac con e :
  e ∈ for_range con (action_element parseProtoMessage wac) →
  (∃ m, e = EnterHandle m) ∨ ∃ H c, e = Go H c.
Proof.
  induction con as [|x con IH]; [by intros ?%elem_of_nil|].
  change (for_range (x :: con) ?b) with (b x ++ for_range con b).
  rewrite elem_of_app. intros [Hx|Hin]; [|by apply IH].
  destruct x; try (by apply elem_of_nil in Hx).
  unfold action_element in Hx. apply elem_of_app in Hx.
  destruct Hx as [Hx|Hx]; apply handle_effects in Hx as [->|?]; eauto.
Qed.

(** X4 (only registered handlers, only their own methods).  Whatever
    value [dispatch] is given and whatever the decoder returns, every
    goroutine it starts runs a method on a handler of [wac.handler] that
    has this method. *)
Theorem dispatch_go_sound (wac : Conn) (msg : value) (H : Handler) (c : call) :
  Go H c ∈ dispatch parseProtoMessage wac msg →
  H ∈ handler wac ∧ satisfies H c.
Proof.
  intros Hin.
  destruct (dispatch_cases wac msg)
    as [Ht|[(n & con & _ & _ & _ & Ht)|[(n & _ & _ & _ & _ & Ht)
       |[[_ Ht]|(_ & _ & _ & _ & Ht)]]]];
    rewrite Ht in Hin.
  - by apply elem_of_nil in Hin.
  - by apply go_in_action_loop in Hin.
  - by apply list_elem_of_singleton in Hin.
  - by apply go_in_handle in Hin as (_ & ? & ?).
  - by apply list_elem_of_singleton in Hin.
Qed.

(** X5 (empty registry).  With no handler registered, [dispatch] starts no
    goroutine, whatever the value: an error, a string or an action node
    full of messages is dropped without a panic. *)
Theorem dispatch_empty_registry (wac : Conn) (msg : value) :
  handler wac = [] →
  targets (dispatch parseProtoMessage wac msg) = [] ∧
  ∀ H c, Go H c ∉ dispatch parseProtoMessage wac msg.
Proof.
  intros Hempty.
  assert (∀ H c, Go H c ∉ dispatch parseProtoMessage wac msg) as Hno.
  { intros H c Hin.
    assert (H ∈ handler wac) as HH; [|rewrite Hempty in HH;
                                       by apply elem_of_nil in HH].
    destruct (dispatch_cases wac msg)
      as [Ht|[(n & con & _ & _ & _ & Ht)|[(n & _ & _ & _ & _ & Ht)
         |[[_ Ht]|(_ & _ & _ & _ & Ht)]]]];
      rewrite Ht in Hin.
    - by apply elem_of_nil in Hin.
    - by apply go_in_action_loop in Hin as [? _].
    - by apply list_elem_of_singleton in Hin.
    - by apply go_in_handle in Hin as (_ & ? & _).
    - by apply list_elem_of_singleton in Hin. }
  split; [|done].
  unfold targets.
  induction (dispatch parseProtoMessage wac msg) as [|e t IH]; [done|].
  assert (∀ H c, Go H c ∉ t) as Ht
    by (intros H c Hin; apply (Hno H c); by right).
  destruct e as [H c| | |]; simpl; try by apply IH.
  destruct (Hno H c). by left.
Qed.

(** X6 (the contact store is reached by contacts responses only).  If
    [dispatch] calls [updateContacts] with [c], then the value is a node
    whose description is ["response"] and whose attribute ["type"] is
    ["contacts"], [c] is its content, and the call is the whole trace.
    An action node never reaches the contact store, whatever its
    attributes. *)
Theorem dispatch_update_contacts_only (wac : Conn) (msg c : value) :
  UpdateContacts c ∈ dispatch parseProtoMessage wac msg →
  ∃ n, msg = VNode n ∧ Description n = "response"
       ∧ map_index (Attributes n) "type" = "contacts"
       ∧ c = Content n
       ∧ dispatch parseProtoMessage wac msg = [UpdateContacts c].
Proof.
  intros Hin.
  destruct (dispatch_cases wac msg)
    as [Ht|[(n & con & _ & _ & _ & Ht)|[(n & -> & _ & Hr & Hty & Ht)
       |[[_ Ht]|(_ & _ & _ & _ & Ht)]]]];
    rewrite Ht in Hin.
  - by apply elem_of_nil in Hin.
  - by apply action_loop_effects in Hin as [[m [=]]|(H & c' & [=])].
  - apply list_elem_of_singleton in Hin as [= ->]. by exists n.
  - by apply handle_effects in Hin as [[=]|(H & c' & [=])].
  - by apply list_elem_of_singleton in Hin.
Qed.

(** X7 (what is written to [os.Stderr]).  If [dispatch] writes to
    [os.Stderr], then the argument written is the dispatched value itself,
    the format is the unknown-type message, the write is the whole trace,
    and the value is not nil, no node, no error and no string.  So no
    node is ever reported, whatever its description, and nothing that
    [handle] drops is reported. *)
Theorem dispatch_stderr_only (wac : Conn) (msg arg : value) (format : string) :
  FprintfStderr format arg ∈ dispatch parseProtoMessage wac msg →
  format = "unknown type in dipatcher chan: %T" ∧ arg = msg ∧
  dispatch parseProtoMessage wac msg = [FprintfStderr format arg] ∧
  msg ≠ VNil ∧ (∀ n, msg ≠ VNode n) ∧
  (∀ e, msg ≠ VError e) ∧ (∀ s, msg ≠ VString s).
Proof.
  intros Hin.
  destruct (dispatch_cases wac msg)
    as [Ht|[(n & con & _ & _ & _ & Ht)|[(n & _ & _ & _ & _ & Ht)
       |[[_ Ht]|(Hnil & Hnode & Herr & Hstr & Ht)]]]];
    rewrite Ht in Hin.
  - by apply elem_of_nil in Hin.
  - by apply action_loop_effects in Hin as [[m [=]]|(H & c' & [=])].
  - by apply list_elem_of_singleton in Hin.
  - by apply handle_effects in Hin as [[=]|(H & c' & [=])].
  - apply list_elem_of_singleton in Hin as [= -> ->]. by rewrite Ht.
Qed.

(** ** Action nodes *)

Lemma filter_raw_bind_length (con : list value) :
  length (con ≫= (λ x, match x with
                       | VWebMessageInfo p => [x; parseProtoMessage p]
                       | _ => []
                       end))
  = 2 * length (filter (λ x, is_raw x) con).
Proof.
  induction con as [|x con IH]; [done|].
  rewrite bind_cons, length_app, IH, filter_cons.
  destruct x; simpl; lia.
Qed.

Lemma action_loop_skips wac (con : list value) :
  for_range con (action_element parseProtoMessage wac)
  = for_range (filter (λ x, is_raw x) con)
      (action_element parseProtoMessage wac).
Proof.
  induction con as [|x con IH]; [done|].
  rewrite filter_cons.
  change (for_range (x :: con) ?b) with (b x ++ for_range con b).
  rewrite IH. by destruct x.
Qed.

(** X8 (two calls of [handle] per raw envelope).  For an action node with
    a sequence for content, the values passed to [handle] are, for each
    raw envelope of the content in order, the envelope and then the result
    of [parseProtoMessage] on it, whatever that result is: [handle] is
    entered twice per raw envelope, also when the decoder has no typed
    form to return. *)
Theorem dispatch_action_two_calls (wac : Conn) (n : Node) (con : list value) :
  Description n = "action" → Content n = VSlice con →
  submissions (dispatch parseProtoMessage wac (VNode n))
  = con ≫= (λ x, match x with
                 | VWebMessageInfo p => [x; parseProtoMessage p]
                 | _ => []
                 end) ∧
  length (submissions (dispatch parseProtoMessage wac (VNode n)))
  = 2 * length (filter (λ x, is_raw x) con).
Proof.
  intros Hd Hc.
  rewrite (dispatch_action _ _ _ _ Hd Hc), submissions_action.
  split; [done|]. apply filter_raw_bind_length.
Qed.

(** X9 (an action node is handled element by element).  The trace of an
    action node whose content is [l1 ++ l2] is the trace for content [l1]
    followed by the trace for content [l2]: no element influences what
    is done for another, and the goroutines are started in the order of
    the content. *)
Theorem dispatch_action_app (wac : Conn) (n : Node) (l1 l2 : list value) :
  Description n = "action" →
  dispatch parseProtoMessage wac (VNode (with_content n (l1 ++ l2)))
  = dispatch parseProtoMessage wac (VNode (with_content n l1))
    ++ dispatch parseProtoMessage wac (VNode (with_content n l2)).
Proof.
  intros Hd.
  rewrite !(dispatch_action _ _ (with_content n _) _ Hd eq_refl).
  apply for_range_app.
Qed.

(** X10 (elements that are no raw envelopes are skipped).  In the content
    of an action node every element that is not a [*proto.WebMessageInfo]
    (a string, a nested node, nil, ...) is passed over with no effect:
    the trace is the one of the node whose content keeps the raw
    envelopes only.  In particular nested nodes are not dispatched. *)
Theorem dispatch_action_skips_others (wac : Conn) (n : Node)
    (con : list value) :
  Description n = "action" →
  dispatch parseProtoMessage wac (VNode (with_content n con))
  = dispatch parseProtoMessage wac
      (VNode (with_content n (filter (λ x, is_raw x) con))).
Proof.
  intros Hd.
  rewrite !(dispatch_action _ _ (with_content n _) _ Hd eq_refl).
  apply action_loop_skips.
Qed.

(** X11 (missing ["type"] attribute).  A node whose description is not
    ["action"] and whose attributes have no key ["type"] is a no-op, also
    when its description is ["response"]: the missing key reads as the
    empty string, which is not ["contacts"]. *)
Theorem dispatch_missing_type (wac : Conn) (n : Node) :
  Description n ≠ "action" → Attributes n !! "type" = None →
  dispatch parseProtoMessage wac (VNode n) = [].
Proof.
  intros Hd Hnone. unfold dispatch. rewrite decide_False by done.
  rewrite decide_False; [done|].
  unfold map_index. rewrite Hnone. by intros [_ [=]].
Qed.

(** X12 (errors and strings at top level).  [dispatch] of an error enters
    [handle] once and starts [HandleError] on every handler of
    [wac.handler], in order; [dispatch] of a string enters [handle] once
    and starts [HandleJsonMessage] on the handlers that implement
    [JsonMessageHandler], in order.  Nothing else happens. *)
Theorem dispatch_error_and_string (wac : Conn) :
  (∀ e, dispatch parseProtoMessage wac (VError e)
        = EnterHandle (VError e)
            :: ((λ h, Go h (HandleError e)) <$> handler wac)) ∧
  (∀ s, dispatch parseProtoMessage wac (VString s)
        = EnterHandle (VString s)
            :: ((λ h, Go h (HandleJsonMessage s))
                  <$> filter (λ h, implements h JsonMessageHandler)
                        (handler wac))).
Proof.
  split.
  - intros e. unfold dispatch, handle. f_equal. apply for_range_always.
  - intros s. unfold dispatch, handle. f_equal.
    apply (for_range_guarded _ (λ h, implements h JsonMessageHandler)).
Qed.

(** ** Raw deliveries of an action node *)

Lemma raw_count_fan_out_raw H p hs :
  length (filter (λ e, is_raw_delivery_to H e)
            (fan_out (HandleRawMessage p) hs))
  = if implements H RawMessageHandler then occurrences H hs else 0.
Proof.
  induction hs as [|h hs IH]; [by destruct (implements _ _)|].
  rewrite fan_out_cons, filter_app, length_app, IH.
  unfold occurrences. rewrite (filter_cons _ h).
  destruct (decide (h = H)) as [->|Hne].
  - unfold satisfies. simpl.
    destruct (implements H RawMessageHandler); [|done].
    rewrite filter_cons, decide_True by (simpl; by rewrite bool_decide_true).
    done.
  - destruct (satisfies h (HandleRawMessage p)); [|done].
    rewrite filter_cons, decide_False
      by (simpl; by rewrite bool_decide_spec).
    done.
Qed.

Lemma raw_count_fan_out_other H c hs :
  (∀ p, c ≠ HandleRawMessage p) →
  length (filter (λ e, is_raw_delivery_to H e) (fan_out c hs)) = 0.
Proof.
  intros Hc. induction hs as [|h hs IH]; [done|].
  rewrite fan_out_cons, filter_app, length_app, IH.
  destruct (satisfies h c); [|done].
  rewrite filter_cons, decide_False; [done|].
  destruct c; try (by intros []). by destruct (Hc message).
Qed.

Lemma raw_count_handle_raw H wac p :
  length (filter (λ e, is_raw_delivery_to H e)
            (handle wac (VWebMessageInfo p)))
  = if implements H RawMessageHandler
    then occurrences H (handler wac) else 0.
Proof.
  unfold handle.
  rewrite (handleMessage_recognized _ (HandleRawMessage p)) by done.
  rewrite filter_cons, decide_False by (by intros []).
  apply raw_count_fan_out_raw.
Qed.

Lemma raw_count_handle_decoded H wac p :
  decoder_range parseProtoMessage →
  length (filter (λ e, is_raw_delivery_to H e)
            (handle wac (parseProtoMessage p))) = 0.
Proof.
  intros Hdec. unfold handle.
  rewrite filter_cons, decide_False by (by intros []).
  rewrite handleMessage_fan_out_of. unfold fan_out_of.
  pose proof (decoder_not_raw parseProtoMessage p Hdec) as Hraw.
  destruct (event_call (parseProtoMessage p)) as [c|] eqn:HE; [|done].
  apply raw_count_fan_out_other. intros q ->.
  by destruct (parseProtoMessage p).
Qed.

(** X13 (raw deliveries per handler).  Let the decoder return chat
    messages or values [handleMessage] has no case for.  For an action
    node whose content is a sequence with k raw envelopes, the number of
    [HandleRawMessage] goroutines started on a handler [H] is k times the
    number of occurrences of [H] in [wac.handler] when [H] implements
    [RawMessageHandler], and zero when it does not. *)
Theorem dispatch_action_raw_deliveries (wac : Conn) (n : Node)
    (con : list value) (H : Handler) :
  decoder_range parseProtoMessage →
  Description n = "action" → Content n = VSlice con →
  length (filter (λ e, is_raw_delivery_to H e)
            (dispatch parseProtoMessage wac (VNode n)))
  = if implements H RawMessageHandler
    then length (filter (λ x, is_raw x) con) * occurrences H (handler wac)
    else 0.
Proof.
  intros Hdec Hd Hc. rewrite (dispatch_action _ _ _ _ Hd Hc).
  induction con as [|x con IH] in |- *;
    [by destruct (implements _ _)|].
  change (for_range (x :: con) ?b) with (b x ++ for_range con b).
  rewrite filter_app, length_app, IH, (filter_cons _ x).
  destruct x; try (by destruct (implements _ _)).
  rewrite decide_True by done. unfold action_element.
  rewrite filter_app, length_app.
  rewrite raw_count_handle_raw, (raw_count_handle_decoded _ _ _ Hdec).
  destruct (implements H RawMessageHandler); simpl; lia.
Qed.

(** X14 (every envelope of an action node reaches every capable
    handler).  For an action node whose content is a sequence, a raw
    envelope [p] of the content and a handler [H] of [wac.handler]:
    [dispatch] starts [HandleRawMessage p] on [H] if [H] implements
    [RawMessageHandler], and starts the method of the decoded form of [p]
    on [H] if the decoder returns a value that has a method and [H] has
    it.  The position of [p] in the content and what the other elements
    are play no part. *)
Theorem dispatch_action_complete (wac : Conn) (n : Node) (con : list value)
    (p : WebMessageInfo) (H : Handler) :
  Description n = "action" → Content n = VSlice con →
  VWebMessageInfo p ∈ con → H ∈ handler wac →
  (implements H RawMessageHandler →
     Go H (HandleRawMessage p) ∈ dispatch parseProtoMessage wac (VNode n)) ∧
  (∀ c, event_call (parseProtoMessage p) = Some c → satisfies H c →
     Go H c ∈ dispatch parseProtoMessage wac (VNode n)).
Proof.
  intros Hd Hc Hp HH. rewrite (dispatch_action _ _ _ _ Hd Hc).
  apply list_elem_of_split in Hp as (l1 & l2 & ->).
  rewrite for_range_app.
  change (for_range (?x :: l2) ?b) with (b x ++ for_range l2 b).
  change (action_element parseProtoMessage wac (VWebMessageInfo p))
    with (handle wac (VWebMessageInfo p) ++ handle wac (parseProtoMessage p)).
  split.
  - intros Himp. rewrite !elem_of_app, !go_in_handle.
    right; left; left. by repeat split.
  - intros c HE Hsat. rewrite !elem_of_app, !go_in_handle.
    right; left; right. by repeat split.
Qed.

(** X15 (a registered handler gets the errors dispatched afterwards).
    After [AddHandler h], [dispatch] of an error enters [handle] once,
    starts [HandleError] on the handlers registered before, in order, and
    then on [h].  No type assertion stands between registration and the
    delivery of errors. *)
Theorem dispatch_error_after_AddHandler (h : Handler) (wac : Conn)
    (e : error) :
  dispatch parseProtoMessage (AddHandler h wac) (VError e)
  = EnterHandle (VError e)
      :: ((λ h', Go h' (HandleError e)) <$> handler wac)
      ++ [Go h (HandleError e)] ∧
  Go h (HandleError e)
    ∈ dispatch parseProtoMessage (AddHandler h wac) (VError e) ∧
  ∀ H, H ∈ handler wac →
       Go H (HandleError e)
         ∈ dispatch parseProtoMessage (AddHandler h wac) (VError e).
Proof.
  assert (dispatch parseProtoMessage (AddHandler h wac) (VError e)
          = EnterHandle (VError e)
              :: ((λ h', Go h' (HandleError e)) <$> handler wac)
              ++ [Go h (HandleError e)]) as Heq.
  { unfold dispatch, handle. f_equal. simpl.
    by rewrite for_range_always, fmap_app. }
  rewrite Heq. split; [done|]. split.
  - apply list_elem_of_further, elem_of_app. right. apply list_elem_of_here.
  - intros H HH. apply list_elem_of_further, elem_of_app. left.
    by apply (list_elem_of_fmap_2 (λ h', Go h' (HandleError e))).
Qed.

(** X16 (the deliveries do not depend on the registration order).  For two
    handler lists that are permutations of each other, the traces of
    [handleMessage] on a value are permutations of each other: the same
    goroutines are started, the same number of times. *)
Theorem handleMessage_permutation (E : value) (hs hs' : list Handler) :
  hs ≡ₚ hs' → handleMessage E hs ≡ₚ handleMessage E hs'.
Proof.
  intros Hperm. rewrite !handleMessage_fan_out_of. unfold fan_out_of.
  destruct (event_call E) as [c|]; [|done].
  unfold fan_out. by rewrite Hperm.
Qed.

End Further.

(** ** Examples for the further properties *)

Lemma dispatch_go_sound_example :
  obsA ∈ handler example_conn ∧
  satisfies obsA (HandleTextMessage (ET := example_types) "hello").
Proof.
  apply (dispatch_go_sound example_parse example_conn (VNode example_action)).
  vm_compute. do 2 apply list_elem_of_further. apply list_elem_of_here.
Defined.

Lemma dispatch_empty_registry_example :
  targets (dispatch example_parse (mkConn []) (VNode example_action)) = [] ∧
  ∀ H c, Go H c ∉ dispatch example_parse (mkConn []) (VNode example_action).
Proof.
  apply (dispatch_empty_registry example_parse (mkConn [])
           (VNode example_action)).
  reflexivity.
Defined.

Lemma dispatch_update_contacts_only_example :
  ∃ n, VNode example_contacts = VNode n ∧ Description n = "response"
       ∧ map_index (Attributes n) "type" = "contacts"
       ∧ VOther "[]uint8" = Content n
       ∧ dispatch example_parse example_conn (VNode example_contacts)
         = [UpdateContacts (VOther "[]uint8")].
Proof.
  apply (dispatch_update_contacts_only example_parse example_conn
           (VNode example_contacts) (VOther "[]uint8")).
  vm_compute. apply list_elem_of_here.
Defined.

Lemma dispatch_stderr_only_example :
  "unknown type in dipatcher chan: %T" = "unknown type in dipatcher chan: %T" ∧
  example_text = example_text ∧
  dispatch example_parse example_conn example_text
    = [FprintfStderr "unknown type in dipatcher chan: %T" example_text] ∧
  example_text ≠ VNil ∧
  (∀ n, example_text ≠ VNode n) ∧
  (∀ e, example_text ≠ VError e) ∧
  (∀ s, example_text ≠ VString s).
Proof.
  apply (dispatch_stderr_only example_parse example_conn
           example_text example_text "unknown type in dipatcher chan: %T").
  vm_compute. apply list_elem_of_here.
Defined.

Lemma dispatch_action_two_calls_example :
  submissions (dispatch example_parse example_conn (VNode example_action))
  = [VWebMessageInfo (ET := example_types) "text";
     VTextMessage (ET := example_types) "hello";
     VWebMessageInfo (ET := example_types) "image";
     VImageMessage (ET := example_types) "photo";
     VWebMessageInfo (ET := example_types) "sticker";
     VNil] ∧
  length (submissions
            (dispatch example_parse example_conn (VNode example_action))) = 6.
Proof.
  exact (dispatch_action_two_calls example_parse example_conn example_action
           example_content eq_refl eq_refl).
Defined.

Lemma dispatch_action_app_example :
  dispatch example_parse example_conn
    (VNode (with_content example_action
              ([VWebMessageInfo (ET := example_types) "text"]
               ++ [VWebMessageInfo (ET := example_types) "image"])))
  = dispatch example_parse example_conn
      (VNode (with_content example_action
                [VWebMessageInfo (ET := example_types) "text"]))
    ++ dispatch example_parse example_conn
         (VNode (with_content example_action
                   [VWebMessageInfo (ET := example_types) "image"])).
Proof.
  apply (dispatch_action_app example_parse example_conn example_action).
  reflexivity.
Defined.

Lemma dispatch_action_skips_others_example :
  dispatch example_parse example_conn
    (VNode (with_content example_action example_content))
  = dispatch example_parse example_conn
      (VNode (with_content example_action
                [VWebMessageInfo (ET := example_types) "text";
                 VWebMessageInfo (ET := example_types) "image";
                 VWebMessageInfo (ET := example_types) "sticker"])).
Proof.
  exact (dispatch_action_skips_others example_parse example_conn
           example_action example_content eq_refl).
Defined.

Lemma dispatch_missing_type_example :
  dispatch example_parse example_conn (VNode example_bare_response) = [].
Proof.
  apply (dispatch_missing_type example_parse example_conn
           example_bare_response).
  - discriminate.
  - reflexivity.
Defined.

Lemma dispatch_action_raw_deliveries_example :
  length (filter (λ e, is_raw_delivery_to obsR e)
            (dispatch example_parse example_conn3 (VNode example_action))) = 3.
Proof.
  exact (dispatch_action_raw_deliveries example_parse example_conn3
           example_action example_content obsR example_parse_range
           eq_refl eq_refl).
Defined.

Lemma dispatch_action_complete_example :
  (implements obsR RawMessageHandler →
     Go obsR (HandleRawMessage (ET := example_types) "image")
       ∈ dispatch example_parse example_conn3 (VNode example_action)) ∧
  (∀ c, event_call (example_parse "image") = Some c → satisfies obsR c →
     Go obsR c ∈ dispatch example_parse example_conn3 (VNode example_action)).
Proof.
  apply (dispatch_action_complete example_parse example_conn3 example_action
           example_content "image" obsR).
  - reflexivity.
  - reflexivity.
  - apply list_elem_of_further, list_elem_of_here.
  - do 2 apply list_elem_of_further. apply list_elem_of_here.
Defined.

Lemma handleMessage_permutation_example :
  handleMessage (VString (ET := example_types) "status") [obsR; obsA; obsR]
  ≡ₚ handleMessage (VString (ET := example_types) "status") [obsA; obsR; obsR].
Proof.
  apply (handleMessage_permutation (ET := example_types)).
  apply perm_swap.
Defined.
